(** * RoomFormDialog: a shallow embedding of
      src/components/admin/room-form-dialog.tsx

    The component is a React function component: props come from the parent,
    two pieces of local state ([isSubmitting] and the react-hook-form values)
    live in the component, and every handler is a piece of effectful,
    partly asynchronous code.  Handlers are embedded as programs of a small
    free monad [Prog] whose operations are the effects the source performs
    (toast, setIsSubmitting, onClose, console.error, form.reset and the two
    awaited persistence calls); the dialog itself is a transition system
    whose inputs are the parent's renders, the user's actions and the
    settling of awaited promises.

    Strings are [string]; a character stands for one UTF-16 code unit, so
    that [String.length] is JavaScript's [.length]. *)

From stdpp Require Import base option list strings.

Local Open Scope string_scope.
Local Open Scope list_scope.
Local Open Scope nat_scope.
Local Open Scope stdpp_scope.

Section Model.

(** [X] stands for the fields of [Room] this component never names, [Exn]
    for the values a persistence call may throw. *)
Context {X Exn : Type}.

(** ** Data model *)

(** Modelled from the spec: the declaration of [Room] in [@/lib/types] is
    not part of the sources; the component reads [id], [name] and
    [locationId], every further field is kept in [room_rest]. *)
Record Room := mkRoom {
  room_id : string;
  room_name : string;
  room_locationId : string;
  room_rest : X
}.

(** Modelled from the spec: [Location] in [@/lib/types]. *)
Record Location := mkLocation {
  loc_id : string;
  loc_name : string
}.

(** [type RoomFormValues = z.infer<typeof roomFormSchema>] *)
Record RoomFormValues := mkValues {
  name : string;
  locationId : string
}.

(** [interface RoomFormDialogProps]; the callback [onClose] is an effect. *)
Record RoomFormDialogProps := mkProps {
  isOpen : bool;
  room : option Room;
  locations : list Location;
  defaultLocationId : option string
}.

(** The argument of [toast({ title, description, variant })]. *)
Record ToastArgs := mkToast {
  title : string;
  description : string;
  variant : option string
}.

(** Field-level messages kept by the form ([<FormMessage />]). *)
Record FieldErrors := mkErrors {
  name_error : option string;
  locationId_error : option string
}.

(** What an awaited persistence call can resolve to. *)
Inductive JsValue :=
| JsUndefined
| JsNull
| JsBool (b : bool)
| JsRoom (r : Room).

(** JavaScript's ToBoolean on these values. *)
Definition truthy (v : JsValue) : bool :=
  match v with
  | JsUndefined | JsNull => false
  | JsBool b => b
  | JsRoom _ => true
  end.

(** The way an awaited promise settles. *)
Inductive Settled :=
| Fulfilled (v : JsValue)
| Rejected (error : Exn).

(** The two collaborators imported from [@/lib/data]. *)
Inductive Call :=
| updateRoom (r : Room)
| addRoom (n l : string).

(** Synchronous effects of the handlers. *)
Inductive Effect :=
| Toast (t : ToastArgs)
| SetIsSubmitting (b : bool)
| OnClose (updated : bool)
| ConsoleError (msg : string) (error : Exn)
| FormReset (v : RoomFormValues)
| FormErrors (e : FieldErrors).

(** What an observer of the component sees, in order. *)
Inductive Event :=
| Did (e : Effect)
| Invoked (c : Call).

(** ** Handler programs *)

Inductive Prog (A : Type) : Type :=
| Ret (a : A)
| Throw (error : Exn)
| Emit (e : Effect) (k : Prog A)
| Await (c : Call) (k : Settled → Prog A).

Arguments Ret {A} a.
Arguments Throw {A} error.
Arguments Emit {A} e k.
Arguments Await {A} c k.

Fixpoint bind {A B} (m : Prog A) (f : A → Prog B) : Prog B :=
  match m with
  | Ret a => f a
  | Throw error => Throw error
  | Emit e k => Emit e (bind k f)
  | Await c k => Await c (λ s, bind (k s) f)
  end.

#[local] Instance Prog_ret : MRet Prog := @Ret.
#[local] Instance Prog_bind : MBind Prog := λ A B f m, bind m f.

Definition perform (e : Effect) : Prog unit := Emit e (Ret tt).

(** [await c]: suspend until the promise of [c] settles; a rejection is
    thrown at the call site. *)
Definition await (c : Call) : Prog JsValue :=
  Await c (λ s, match s with
                | Fulfilled v => Ret v
                | Rejected error => Throw error
                end).

(** [try { body } catch (error) { handler error }] *)
Fixpoint try_catch {A} (body : Prog A) (handler : Exn → Prog A) : Prog A :=
  match body with
  | Ret a => Ret a
  | Throw error => handler error
  | Emit e k => Emit e (try_catch k handler)
  | Await c k => Await c (λ s, try_catch (k s) handler)
  end.

(** [try { body } finally { fin }]: [fin] runs on both exits, and the
    completion of [body] is kept. *)
Fixpoint try_finally {A} (body : Prog A) (fin : Prog unit) : Prog A :=
  match body with
  | Ret a => bind fin (λ _, Ret a)
  | Throw error => bind fin (λ _, Throw error)
  | Emit e k => Emit e (try_finally k fin)
  | Await c k => Await c (λ s, try_finally (k s) fin)
  end.

Definition try_catch_finally {A} (body : Prog A) (handler : Exn → Prog A)
    (fin : Prog unit) : Prog A :=
  try_finally (try_catch body handler) fin.

Definition toast (t : ToastArgs) : Prog unit := perform (Toast t).
Definition setIsSubmitting (b : bool) : Prog unit := perform (SetIsSubmitting b).
Definition onClose (updated : bool) : Prog unit := perform (OnClose updated).
Definition console_error (msg : string) (error : Exn) : Prog unit :=
  perform (ConsoleError msg error).
Definition form_reset (v : RoomFormValues) : Prog unit := perform (FormReset v).

(** [{ ...room, name: n, locationId: l }] *)
Definition spread_room (r : Room) (n l : string) : Room :=
  {| room_id := room_id r; room_name := n; room_locationId := l;
     room_rest := room_rest r |}.

Definition toast_no_locations : ToastArgs :=
  {| title := "Error";
     description := "No locations available. Please add a location first.";
     variant := Some "destructive" |}.
Definition toast_room_updated : ToastArgs :=
  {| title := "Room Updated";
     description := "The room has been successfully updated.";
     variant := None |}.
Definition toast_update_failed : ToastArgs :=
  {| title := "Error";
     description := "Failed to update room. Please try again.";
     variant := Some "destructive" |}.
Definition toast_room_added : ToastArgs :=
  {| title := "Room Added";
     description := "The new room has been successfully added.";
     variant := None |}.
Definition toast_add_failed : ToastArgs :=
  {| title := "Error";
     description := "Failed to add room. Please try again.";
     variant := Some "destructive" |}.
Definition toast_unexpected : ToastArgs :=
  {| title := "Error";
     description := "An unexpected error occurred while saving the room.";
     variant := Some "destructive" |}.

(** [const onSubmit = async (data: RoomFormValues) => { ... }], closed over
    the props of the render that created it. *)
Definition onSubmit (p : RoomFormDialogProps) (data : RoomFormValues)
    : Prog unit :=
  if decide (length (locations p) = 0) then
    toast toast_no_locations
  else
    setIsSubmitting true;;
    try_catch_finally
      (match room p with
       | Some r =>
           success ← await (updateRoom (spread_room r (name data) (locationId data)));
           if truthy success then
             toast toast_room_updated;;
             onClose true
           else
             toast toast_update_failed
       | None =>
           newRoom ← await (addRoom (name data) (locationId data));
           if truthy newRoom then
             toast toast_room_added;;
             onClose true
           else
             toast toast_add_failed
       end)
      (λ error,
         toast toast_unexpected;;
         console_error "Failed to save room:" error)
      (setIsSubmitting false).

(** ** Running a handler to completion *)

(** [run oracle m]: the events of [m] when every awaited call [c] settles
    as [oracle c], with the way [m] completes.  A call whose promise never
    settles leaves the handler where [run_sync] below stops. *)
Fixpoint run {A} (oracle : Call → Settled) (m : Prog A)
    : list Event * (Exn + A) :=
  match m with
  | Ret a => ([], inr a)
  | Throw error => ([], inl error)
  | Emit e k => let '(t, r) := run oracle k in (Did e :: t, r)
  | Await c k => let '(t, r) := run oracle (k (oracle c)) in (Invoked c :: t, r)
  end.

Definition trace {A} (oracle : Call → Settled) (m : Prog A) : list Event :=
  (run oracle m).1.

(** Where a handler stops when it is started from an event loop turn:
    either it has completed, or it waits for a promise. *)
Inductive Paused (A : Type) : Type :=
| Finished (r : Exn + A)
| Suspended (c : Call) (k : Settled → Prog A).

Arguments Finished {A} r.
Arguments Suspended {A} c k.

Fixpoint run_sync {A} (m : Prog A) : list Event * Paused A :=
  match m with
  | Ret a => ([], Finished (inr a))
  | Throw error => ([], Finished (inl error))
  | Emit e k => let '(t, r) := run_sync k in (Did e :: t, r)
  | Await c k => ([Invoked c], Suspended c k)
  end.

(** Projections of a trace. *)
Definition calls (t : list Event) : list Call :=
  omap (λ ev, match ev with Invoked c => Some c | _ => None end) t.
Definition toasts (t : list Event) : list ToastArgs :=
  omap (λ ev, match ev with Did (Toast a) => Some a | _ => None end) t.
Definition closes (t : list Event) : list bool :=
  omap (λ ev, match ev with Did (OnClose u) => Some u | _ => None end) t.
Definition flag_writes (t : list Event) : list bool :=
  omap (λ ev, match ev with Did (SetIsSubmitting b) => Some b | _ => None end) t.
Definition logged (t : list Event) : list (string * Exn) :=
  omap (λ ev, match ev with
              | Did (ConsoleError msg error) => Some (msg, error)
              | _ => None
              end) t.

(** The [isSubmitting] state after an event, [b] being its value before. *)
Definition next_flag (b : bool) (ev : Event) : bool :=
  match ev with
  | Did (SetIsSubmitting b') => b'
  | _ => b
  end.

(** [with_flag b t] pairs every event of [t] with the value the
    [isSubmitting] state has when the event happens, [b] being its value
    before [t]. *)
Fixpoint with_flag (b : bool) (t : list Event) : list (bool * Event) :=
  match t with
  | [] => []
  | ev :: t' => (b, ev) :: with_flag (next_flag b ev) t'
  end.

(** ** Validation schema *)

(** [z.string().min(n, message)] on a string: the message when the string
    is shorter than [n]. *)
Definition z_string_min (n : nat) (message : string) (s : string)
    : option string :=
  if decide (n ≤ String.length s)%nat then None else Some message.

Definition no_errors : FieldErrors :=
  {| name_error := None; locationId_error := None |}.

(** [roomFormSchema], as [safeParse] applies it: the accepted value, or the
    message of each field in violation. *)
Definition roomFormSchema (v : RoomFormValues) : FieldErrors + RoomFormValues :=
  let e :=
    {| name_error :=
         z_string_min 3 "Room name must be at least 3 characters long." (name v);
       locationId_error :=
         z_string_min 1 "Location is required." (locationId v) |} in
  match name_error e, locationId_error e with
  | None, None => inr v
  | _, _ => inl e
  end.

(** [form.handleSubmit(onValid)] with [resolver: zodResolver(roomFormSchema)]:
    the resolver runs first; [onValid] is called with the parsed values
    only when there is no error, and the field errors are stored
    otherwise. *)
Definition handleSubmit (onValid : RoomFormValues → Prog unit)
    (v : RoomFormValues) : Prog unit :=
  match roomFormSchema v with
  | inr data => perform (FormErrors no_errors);; onValid data
  | inl e => perform (FormErrors e)
  end.

(** ** Form state controller *)

(** [a || b] where [a] may be [undefined] or a string and [b] likewise:
    the empty string and [undefined] are falsy. *)
Definition or_undef (a b : option string) : option string :=
  match a with
  | Some s => if decide (s = "") then b else Some s
  | None => b
  end.

(** [a || b] where [b] is a string. *)
Definition or_string (a : option string) (b : string) : string :=
  match a with
  | Some s => if decide (s = "") then b else s
  | None => b
  end.

(** [{ name: room?.name || '',
       locationId: room?.locationId || defaultLocationId
                   || (locations.length > 0 ? locations[0].id : '') }] *)
Definition initialValues (p : RoomFormDialogProps) : RoomFormValues :=
  {| name := or_string (room_name <$> room p) "";
     locationId :=
       or_string (or_undef (room_locationId <$> room p) (defaultLocationId p))
         (if decide (0 < length (locations p))%nat
          then from_option loc_id "" (locations p !! 0)
          else "") |}.

(** The body of the [useEffect]. *)
Definition openEffect (p : RoomFormDialogProps) : Prog unit :=
  if isOpen p then
    form_reset (initialValues p);;
    setIsSubmitting false
  else Ret tt.

(** [onOpenChange={(open) => { if (!open) onClose(false); }}] *)
Definition onOpenChange (open : bool) : Prog unit :=
  if negb open then onClose false else Ret tt.

(** [onClick={() => onClose(false)}] of the Cancel button. *)
Definition onCancelClick : Prog unit := onClose false.

(** ** The dialog as a transition system *)

Record Dialog := mkDialog {
  props : RoomFormDialogProps;
  isSubmitting : bool;
  values : RoomFormValues;
  errors : FieldErrors;
  pending : list (Settled → Prog unit)
}.

Definition apply_event (s : Dialog) (ev : Event) : Dialog :=
  match ev with
  | Did (SetIsSubmitting b) =>
      mkDialog (props s) b (values s) (errors s) (pending s)
  | Did (FormReset v) =>
      mkDialog (props s) (isSubmitting s) v no_errors (pending s)
  | Did (FormErrors e) =>
      mkDialog (props s) (isSubmitting s) (values s) e (pending s)
  | _ => s
  end.

Definition suspend (s : Dialog) (r : Paused unit) : Dialog :=
  match r with
  | Suspended _ k =>
      mkDialog (props s) (isSubmitting s) (values s) (errors s) (pending s ++ [k])
  | Finished _ => s
  end.

(** Run a handler until it completes or awaits. *)
Definition dispatch (s : Dialog) (m : Prog unit) : Dialog * list Event :=
  let '(t, r) := run_sync m in
  (suspend (foldl apply_event s t) r, t).

Inductive Input :=
| Render (p : RoomFormDialogProps)
| ChangeName (n : string)
| SelectLocation (i : nat)
| ClickCancel
| OpenChange (open : bool)
| Submit
| Settle (i : nat) (o : Settled).

Definition cancel_disabled (s : Dialog) : bool := isSubmitting s.
Definition submit_disabled (s : Dialog) : bool :=
  isSubmitting s || bool_decide (length (locations (props s)) = 0).

Definition set_props (s : Dialog) (p : RoomFormDialogProps) : Dialog :=
  mkDialog p (isSubmitting s) (values s) (errors s) (pending s).
Definition set_values (s : Dialog) (v : RoomFormValues) : Dialog :=
  mkDialog (props s) (isSubmitting s) v (errors s) (pending s).
Definition set_pending (s : Dialog) (l : list (Settled → Prog unit)) : Dialog :=
  mkDialog (props s) (isSubmitting s) (values s) (errors s) l.

(** One turn of the event loop.  [Render p] is a render in which a
    dependency of the effect changed; the controls exist only while the
    dialog is open ([if (!isOpen) return null]) and a disabled button
    takes no click. *)
Definition step (s : Dialog) (i : Input) : option (Dialog * list Event) :=
  match i with
  | Render p => Some (dispatch (set_props s p) (openEffect p))
  | ChangeName n =>
      if isOpen (props s)
      then Some (set_values s (mkValues n (locationId (values s))), [])
      else None
  | SelectLocation i =>
      if isOpen (props s) then
        l ← locations (props s) !! i;
        Some (set_values s (mkValues (name (values s)) (loc_id l)), [])
      else None
  | ClickCancel =>
      if isOpen (props s) && negb (cancel_disabled s)
      then Some (dispatch s onCancelClick)
      else None
  | OpenChange open =>
      if isOpen (props s) then Some (dispatch s (onOpenChange open)) else None
  | Submit =>
      if isOpen (props s) && negb (submit_disabled s)
      then Some (dispatch s (handleSubmit (onSubmit (props s)) (values s)))
      else None
  | Settle i o =>
      k ← pending s !! i;
      Some (dispatch (set_pending s (delete i (pending s))) (k o))
  end.

Fixpoint steps (s : Dialog) (ins : list Input) : option (Dialog * list Event) :=
  match ins with
  | [] => Some (s, [])
  | i :: ins' =>
      '(s', t) ← step s i;
      '(s'', t') ← steps s' ins';
      Some (s'', t ++ t')
  end.

(** First render: [useState(false)], [useForm({ defaultValues })], then
    the effect. *)
Definition mount (p : RoomFormDialogProps) : Dialog * list Event :=
  dispatch (mkDialog p false (initialValues p) no_errors []) (openEffect p).

(** ** Vocabulary of the statements *)

(** [only_emits P m]: every synchronous effect [m] can perform, on any
    way its awaited calls settle, satisfies [P]. *)
Fixpoint only_emits (P : Effect → Prop) {A} (m : Prog A) : Prop :=
  match m with
  | Ret _ | Throw _ => True
  | Emit e k => P e ∧ only_emits P k
  | Await _ k => ∀ o, only_emits P (k o)
  end.

(** Effects that leave the form values alone. *)
Definition keeps_form (e : Effect) : Prop :=
  match e with
  | FormReset _ => False
  | _ => True
  end.

(** The ids the location picker offers. *)
Definition location_ids (p : RoomFormDialogProps) : list string :=
  loc_id <$> locations p.

(** The value the props seed [locationId] with, when it is not empty, is
    an id of the list. *)
Definition seed_in_list (p : RoomFormDialogProps) : Prop :=
  ∀ i, or_undef (room_locationId <$> room p) (defaultLocationId p) = Some i →
       i ≠ "" → i ∈ location_ids p.

Definition renders_seeded (ins : list Input) : Prop :=
  Forall (λ i, match i with Render p => seed_in_list p | _ => True end) ins.

(** What a session shows from the mounting of the dialog on: every event
    of the inputs [ins], with the value of the submitting flag at the
    moment it happens. *)
Definition session_log (p : RoomFormDialogProps) (ins : list Input)
    : option (list (bool * Event)) :=
  r ← steps (mount p).1 ins;
  Some (with_flag (isSubmitting (mount p).1) r.2).

(** While the dialog shows a non-empty picker, the form's [locationId] is
    one of the ids offered. *)
Definition location_valid (s : Dialog) : Prop :=
  isOpen (props s) = true → locations (props s) ≠ [] →
  locationId (values s) ∈ location_ids (props s).

(** No suspended handler will touch the form values when it resumes. *)
Definition pending_keep_form (s : Dialog) : Prop :=
  Forall (λ k, ∀ o, only_emits keeps_form (k o)) (pending s).

(** ** Presentation *)

(** What the returned JSX shows, element by element. *)
Record View := mkView {
  title_text : string;
  select_value : string;
  select_disabled : bool;
  select_placeholder : string;
  select_items : list (string * string);
  hint_children : option string;
  locationId_message : option string;
  name_value : string;
  name_placeholder : string;
  name_message : option string;
  cancel_button_disabled : bool;
  submit_button_disabled : bool;
  spinner : bool;
  submit_label : string
}.

(** [if (!isOpen) return null; return ( <Dialog ...> ... </Dialog> )].
    An item of the picker is the pair of its [value] and its label; the
    messages under the fields are those kept by the form. *)
Definition render (s : Dialog) : option View :=
  if negb (isOpen (props s)) then None
  else
    Some
      {| title_text :=
           match room (props s) with
           | Some _ => "Edit Room"
           | None => "Add New Room"
           end;
         select_value := locationId (values s);
         select_disabled := bool_decide (length (locations (props s)) = 0);
         select_placeholder :=
           if decide (0 < length (locations (props s)))%nat
           then "Select a location"
           else "No locations available";
         select_items := (λ loc, (loc_id loc, loc_name loc)) <$> locations (props s);
         hint_children :=
           if decide (length (locations (props s)) = 0)
           then Some "Please add a location first in the 'Locations' section."
           else None;
         locationId_message := locationId_error (errors s);
         name_value := name (values s);
         name_placeholder := "e.g., Sunrise Suite";
         name_message := name_error (errors s);
         cancel_button_disabled := isSubmitting s;
         submit_button_disabled :=
           isSubmitting s || bool_decide (length (locations (props s)) = 0);
         spinner := isSubmitting s;
         submit_label :=
           match room (props s) with
           | Some _ => "Save Changes"
           | None => "Add Room"
           end |}.

(** ** Vocabulary of the session properties *)

(** The events of the turn in which the awaited call of a submission
    settles as [o], in edit or in create mode. *)
Definition settle_events (edit : bool) (o : Settled) : list Event :=
  match o with
  | Fulfilled x =>
      if truthy x then
        [Did (Toast (if edit then toast_room_updated else toast_room_added));
         Did (OnClose true); Did (SetIsSubmitting false)]
      else
        [Did (Toast (if edit then toast_update_failed else toast_add_failed));
         Did (SetIsSubmitting false)]
  | Rejected error =>
      [Did (Toast toast_unexpected);
       Did (ConsoleError "Failed to save room:" error);
       Did (SetIsSubmitting false)]
  end.

(** A suspended handler that, once its call settles, completes in that
    turn with the events of a submission. *)
Definition resumes_once (k : Settled → Prog unit) : Prop :=
  ∃ edit, ∀ o, run_sync (k o) = (settle_events edit o, Finished (inr ())).

Definition pending_resume_once (s : Dialog) : Prop :=
  Forall resumes_once (pending s).

(** The call a submission of the form values [v] makes under props [p]. *)
Definition submit_call (p : RoomFormDialogProps) (v : RoomFormValues) : Call :=
  match room p with
  | Some r => updateRoom (spread_room r (name v) (locationId v))
  | None => addRoom (name v) (locationId v)
  end.

(** The name and the locationId a call carries pass the schema. *)
Definition carries_valid_data (c : Call) : Prop :=
  match c with
  | updateRoom r => 3 ≤ String.length (room_name r) ∧ room_locationId r ≠ ""
  | addRoom n l => 3 ≤ String.length n ∧ l ≠ ""
  end.

(** The inputs by which the user or the parent edits the form. *)
Definition edits_form (i : Input) : Prop :=
  match i with
  | Render _ | ChangeName _ | SelectLocation _ => True
  | _ => False
  end.

Definition is_render (i : Input) : Prop :=
  match i with
  | Render _ => True
  | _ => False
  end.

End Model.

Arguments Ret {X Exn A} a.
Arguments Throw {X Exn A} error.
Arguments Emit {X Exn A} e k.
Arguments Await {X Exn A} c k.
Arguments Finished {X Exn A} r.
Arguments Suspended {X Exn A} c k.

(** ** Sample data: the scenarios of the specification *)

Definition lobby : Location := mkLocation "L1" "Lobby".

Definition room_R1 : @Room nat := mkRoom "R1" "Old" "L1" 42.

Definition room_created : @Room nat := mkRoom "R2" "Sunrise Suite" "L1" 0.

Definition props_create : @RoomFormDialogProps nat :=
  mkProps true None [lobby] (Some "L1").

Definition props_edit : @RoomFormDialogProps nat :=
  mkProps true (Some room_R1) [lobby] None.

Definition props_no_locations : @RoomFormDialogProps nat :=
  mkProps true None [] None.

Definition props_stray_default : @RoomFormDialogProps nat :=
  mkProps true None [lobby] (Some "L2").

Definition update_fails : @Call nat → @Settled nat string :=
  λ _, Fulfilled (JsBool false).

Definition create_succeeds : @Call nat → @Settled nat string :=
  λ _, Fulfilled (JsRoom room_created).

Definition call_throws : @Call nat → @Settled nat string :=
  λ _, Rejected "network down".

Definition sunrise : RoomFormValues := mkValues "Sunrise Suite" "L1".

Definition renamed : RoomFormValues := mkValues "New" "L1".

(** A dialog left mid-submission with an edited draft. *)
Definition stale_session : @Dialog nat string :=
  mkDialog props_create true (mkValues "Draft" "L1") no_errors [].

(** A create session: type the name, pick the first location, submit, and
    the call resolves to the created room. *)
Definition create_session : list (@Input nat string) :=
  [ChangeName "Sunrise Suite"; SelectLocation 0; Submit;
   Settle 0 (Fulfilled (JsRoom room_created))].

(** A create session that leaves the picker alone. *)
Definition default_session : list (@Input nat string) :=
  [ChangeName "Sunrise Suite"; Submit;
   Settle 0 (Fulfilled (JsRoom room_created))].

(** The dialog is re-opened on [room_R1] and the same actions follow. *)
Definition reopened_session : list (@Input nat string) :=
  Render props_edit :: create_session.

(** A submission whose call has not settled yet. *)
Definition pending_session : list (@Input nat string) :=
  [ChangeName "Sunrise Suite"; Submit].

(** The create dialog after the name has been typed. *)
Definition typed_dialog : @Dialog nat string :=
  set_values (mount props_create).1 (mkValues "Sunrise Suite" "L1").

(** A failed submission, then Cancel. *)
Definition failed_then_cancelled : list (@Input nat string) :=
  [Submit; Settle 0 (Rejected "network down"); ClickCancel].

(** The same session, dismissed (Escape, overlay click) before the call
    resolves. *)
Definition dismissed_session : list (@Input nat string) :=
  [ChangeName "Sunrise Suite"; Submit; OpenChange false;
   Settle 0 (Fulfilled (JsRoom room_created))].

(** * Properties *)

Section Properties.

Context {X Exn : Type}.

Implicit Types (p : @RoomFormDialogProps X) (r : @Room X) (c : @Call X).
Implicit Types (oracle : @Call X → @Settled X Exn) (error : Exn).
Implicit Types (v data : RoomFormValues) (s : @Dialog X Exn) (x : @JsValue X).
Implicit Types (t : list (@Event X Exn)) (ins : list (@Input X Exn)).


(** ** The submit handler, case by case *)

Lemma locations_nil_length p :
  length (locations p) = 0 ↔ locations p = [].
Proof. destruct (locations p); simpl; split; intros; done. Qed.

(** Evaluate [onSubmit] along the branch the hypotheses select. *)
Ltac pick_branch :=
  match goal with
  | H : locations ?p = [] |- context [decide (length (locations ?p) = 0)] =>
      rewrite H
  | H : locations ?p ≠ [] |- context [decide (length (locations ?p) = 0)] =>
      destruct (decide (length (locations p) = 0)) as [?%locations_nil_length|_];
      [done|]
  | H : ?x = _ |- context [match ?x with _ => _ end] => rewrite H
  | H : ?x = _ |- context [if ?x then _ else _] => rewrite H
  end.

Ltac eval_onSubmit :=
  unfold trace, handleSubmit, onSubmit;
  repeat first [ pick_branch | progress cbn ].

(** Split on everything [onSubmit] branches on. *)
Ltac onSubmit_cases p data oracle :=
  destruct (decide (locations p = [])) as [?|?];
  [ | destruct (room p) as [?r|] eqn:? ];
  eval_onSubmit;
  try (match goal with
       | |- context [oracle (updateRoom ?a)] =>
           destruct (oracle (updateRoom a)) as [?v|?error] eqn:?
       | |- context [oracle (addRoom ?a ?b)] =>
           destruct (oracle (addRoom a b)) as [?v|?error] eqn:?
       end;
       [ match goal with
         | H : oracle _ = Fulfilled ?x |- _ => destruct (truthy x) eqn:?
         end | ];
       eval_onSubmit).

(** The only call of a run is the one the hypotheses speak about. *)
Ltac the_call H :=
  first
    [ by apply elem_of_nil in H
    | apply list_elem_of_singleton in H; subst;
      repeat match goal with
             | H1 : ?o ?c = _, H2 : ?o ?c = _ |- _ => rewrite H1 in H2
             end;
      simplify_eq; try congruence ].

Lemma run_run_sync {A} oracle (m : @Prog X Exn A) :
  run oracle m =
  match run_sync m with
  | (t, Finished r) => (t, r)
  | (t, Suspended c k) => let '(t', r) := run oracle (k (oracle c)) in (t ++ t', r)
  end.
Proof.
  induction m as [a|error|e k IH|c k _]; cbn; [done..| |].
  - rewrite IH. destruct (run_sync k) as [t [r|c' k']]; [done|].
    by destruct (run oracle (k' (oracle c'))).
  - by destruct (run oracle (k (oracle c))).
Qed.

Lemma roomFormSchema_inr v data : roomFormSchema v = inr data → data = v.
Proof.
  unfold roomFormSchema; cbn.
  destruct (z_string_min 3 _ _), (z_string_min 1 _ _); congruence.
Qed.

Lemma handleSubmit_valid oracle (f : RoomFormValues → @Prog X Exn unit) v :
  roomFormSchema v = inr v →
  trace oracle (handleSubmit f v) = Did (FormErrors no_errors) :: trace oracle (f v).
Proof.
  intros Hv. unfold trace, handleSubmit. rewrite Hv. cbn.
  by destruct (run oracle (f v)).
Qed.

Lemma onSubmit_rejects_empty p data oracle :
  locations p = [] →
  run oracle (onSubmit p data) = ([Did (Toast toast_no_locations)], inr ()).
Proof. intros Hl. by eval_onSubmit. Qed.

Lemma onSubmit_calls p data oracle :
  locations p ≠ [] →
  calls (trace oracle (onSubmit p data)) =
  [match room p with
   | Some r => updateRoom (spread_room r (name data) (locationId data))
   | None => addRoom (name data) (locationId data)
   end].
Proof. intros Hl. by onSubmit_cases p data oracle. Qed.

Lemma onSubmit_completes p data oracle : (run oracle (onSubmit p data)).2 = inr ().
Proof. by onSubmit_cases p data oracle. Qed.

(** ** Claims about the submit handler *)

(** C1. In edit mode, a submission with valid form data and a non-empty
    location list invokes [updateRoom] exactly once (and [addRoom] never),
    with the record made of the original id, the form's name and the form's
    locationId.  When the call resolves to a truthy value the success toast
    is emitted and [onClose(true)] is called; when it resolves to a falsy
    value the failure toast is emitted and [onClose] is not called. *)
Theorem C1_edit_submission p r v oracle :
  room p = Some r → locations p ≠ [] → roomFormSchema v = inr v →
  let merged := spread_room r (name v) (locationId v) in
  let t := trace oracle (handleSubmit (onSubmit p) v) in
  calls t = [updateRoom merged] ∧
  (room_id merged = room_id r ∧ room_name merged = name v ∧
   room_locationId merged = locationId v) ∧
  (∀ x, oracle (updateRoom merged) = Fulfilled x → truthy x = true →
     toasts t = [toast_room_updated] ∧ closes t = [true]) ∧
  (∀ x, oracle (updateRoom merged) = Fulfilled x → truthy x = false →
     toasts t = [toast_update_failed] ∧ closes t = []).
Proof.
  intros Hr Hl Hv merged t. subst t merged.
  rewrite handleSubmit_valid by done. split_and!; try done.
  - change (calls (?e :: ?t)) with (calls t).
    rewrite onSubmit_calls by done. by rewrite Hr.
  - intros x Ho Ht. by eval_onSubmit.
  - intros x Ho Ht. by eval_onSubmit.
Qed.

(** C2. In create mode, a submission with valid form data and a non-empty
    location list invokes [addRoom] exactly once (and [updateRoom] never)
    with the form's name and locationId.  A non-null (truthy) result gives
    the success toast and [onClose(true)]; a null or otherwise falsy result
    gives the failure toast and no call of [onClose]. *)
Theorem C2_create_submission p v oracle :
  room p = None → locations p ≠ [] → roomFormSchema v = inr v →
  let t := trace oracle (handleSubmit (onSubmit p) v) in
  calls t = [addRoom (name v) (locationId v)] ∧
  (∀ x, oracle (addRoom (name v) (locationId v)) = Fulfilled x → truthy x = true →
     toasts t = [toast_room_added] ∧ closes t = [true]) ∧
  (∀ x, oracle (addRoom (name v) (locationId v)) = Fulfilled x → truthy x = false →
     toasts t = [toast_add_failed] ∧ closes t = []) ∧
  @truthy X JsNull = false ∧ (∀ r', truthy (JsRoom r') = true).
Proof.
  intros Hr Hl Hv t. subst t.
  rewrite handleSubmit_valid by done. split_and!; try done.
  - change (calls (?e :: ?t)) with (calls t).
    rewrite onSubmit_calls by done. by rewrite Hr.
  - intros x Ho Ht. by eval_onSubmit.
  - intros x Ho Ht. by eval_onSubmit.
Qed.

(** C4. A submit attempt made while the location list is empty is rejected
    before any persistence call: the handler completes in the same turn
    having emitted only the destructive "No locations available" toast;
    neither [addRoom] nor [updateRoom] is invoked, [setIsSubmitting] is
    never called, [onClose] is not called, and the component state is left
    as it was. *)
Theorem C4_empty_locations_rejected p data oracle :
  locations p = [] →
  let t := trace oracle (onSubmit p data) in
  t = [Did (Toast toast_no_locations)] ∧
  run_sync (onSubmit p data) = (t, Finished (inr ())) ∧
  calls t = [] ∧ flag_writes t = [] ∧ closes t = [] ∧
  toasts t = [toast_no_locations] ∧
  description toast_no_locations =
    "No locations available. Please add a location first." ∧
  variant toast_no_locations = Some "destructive" ∧
  (∀ s, (dispatch s (onSubmit p data)).1 = s).
Proof.
  intros Hl t. subst t. unfold trace. rewrite onSubmit_rejects_empty by done.
  assert (run_sync (onSubmit p data)
          = ([Did (Toast toast_no_locations)] : list (@Event X Exn),
             Finished (inr ()))) as Hs.
  { unfold onSubmit. by rewrite Hl. }
  split_and!; try done.
  intros s. unfold dispatch. rewrite Hs. by destruct s.
Qed.

(** C5. When the persistence call the handler invokes throws (its promise
    is rejected), the error is caught: the handler completes normally,
    having emitted the generic failure toast and logged the error with
    [console.error]; [onClose] is not called and the last write to the
    submitting flag is [false], whatever the state was. *)
Theorem C5_thrown_error_is_caught p data oracle c error :
  c ∈ calls (trace oracle (onSubmit p data)) → oracle c = Rejected error →
  let t := trace oracle (onSubmit p data) in
  run oracle (onSubmit p data) =
    ([Did (SetIsSubmitting true); Invoked c; Did (Toast toast_unexpected);
      Did (ConsoleError "Failed to save room:" error);
      Did (SetIsSubmitting false)], inr ()) ∧
  toasts t = [toast_unexpected] ∧
  logged t = [("Failed to save room:", error)] ∧
  closes t = [] ∧
  flag_writes t = [true; false] ∧
  (∀ s, isSubmitting (foldl apply_event s t) = false).
Proof.
  intros Hc Ho t. subst t. revert Hc.
  onSubmit_cases p data oracle;
    intros Hc; the_call Hc; done.
Qed.

(** C9. In edit mode the record handed to [updateRoom] is the supplied room
    with [name] and [locationId] overwritten: its id and every field the
    component does not name are those of the supplied room. *)
Theorem C9_update_preserves_other_fields p r data oracle c :
  room p = Some r → c ∈ calls (trace oracle (onSubmit p data)) →
  ∃ r', c = updateRoom r' ∧
    room_id r' = room_id r ∧ room_rest r' = room_rest r ∧
    room_name r' = name data ∧ room_locationId r' = locationId data.
Proof.
  intros Hr Hc. destruct (decide (locations p = [])) as [Hl|Hl].
  - unfold trace in Hc. rewrite onSubmit_rejects_empty in Hc by done.
    by apply elem_of_nil in Hc.
  - rewrite onSubmit_calls, Hr in Hc by done.
    apply list_elem_of_singleton in Hc. subst c. by eexists.
Qed.

(** C10. Every invocation of the submit handler that runs to completion
    emits exactly one toast: a success toast (no destructive variant) when
    the persistence call resolved to a truthy value, and an error toast
    (title "Error", destructive variant) in every other case: empty
    location list, falsy result, thrown error. *)
Theorem C10_exactly_one_toast p data oracle :
  let t := trace oracle (onSubmit p data) in
  ∃ a, toasts t = [a] ∧
    ((∃ c x, c ∈ calls t ∧ oracle c = Fulfilled x ∧ truthy x = true) →
       a ∈ [toast_room_updated; toast_room_added] ∧ variant a = None) ∧
    ((¬ ∃ c x, c ∈ calls t ∧ oracle c = Fulfilled x ∧ truthy x = true) →
       a ∈ [toast_no_locations; toast_update_failed; toast_add_failed;
            toast_unexpected] ∧
       title a = "Error" ∧ variant a = Some "destructive").
Proof.
  intros t. subst t.
  onSubmit_cases p data oracle; eexists; (split; [done|]); split.
  all: try (intros (c & x & Hc & Ho & Ht); the_call Hc).
  all: try (intros Hn; try (exfalso; apply Hn; eexists _, _;
                            split_and!; [by apply list_elem_of_singleton|done..])).
  all: split; [by repeat constructor|done].
Qed.

(** C3, as the code has it.  A run of the submit handler calls [onClose]
    at most once: when the persistence call resolved to a truthy value the
    run is exactly: set the flag, call, success toast, [onClose(true)],
    reset the flag (so [onClose(true)] happens after the call has
    settled, while the flag still reads true), and in every other case
    [onClose] is not called.  The Cancel button takes no click while the
    flag is true, and its handler calls [onClose(false)]. *)
Theorem C3_onClose_after_success_or_cancel p data oracle s :
  let t := trace oracle (onSubmit p data) in
  (∀ c x, c ∈ calls t → oracle c = Fulfilled x → truthy x = true →
     ∃ a, a ∈ [toast_room_updated; toast_room_added] ∧
          t = [Did (SetIsSubmitting true); Invoked c; Did (Toast a);
               Did (OnClose true); Did (SetIsSubmitting false)]) ∧
  ((¬ ∃ c x, c ∈ calls t ∧ oracle c = Fulfilled x ∧ truthy x = true) →
     closes t = []) ∧
  (isSubmitting s = true → step s ClickCancel = None) ∧
  (∀ s' t', step s ClickCancel = Some (s', t') →
     isSubmitting s = false ∧ t' = [Did (OnClose false)]).
Proof.
  intros t. subst t. split_and!.
  - onSubmit_cases p data oracle; intros c x Hc Ho Ht; the_call Hc;
      (eexists; split; [|done]); by repeat constructor.
  - onSubmit_cases p data oracle; intros Hn; try done;
      exfalso; apply Hn; eexists _, _;
      (split_and!; [by apply list_elem_of_singleton|done..]).
  - intros Hs. cbn. unfold cancel_disabled. rewrite Hs.
    by destruct (isOpen (props s)).
  - intros s' t'. cbn. unfold cancel_disabled.
    destruct (isOpen (props s)), (isSubmitting s); cbn; try done.
    by intros [= <- <-].
Qed.

(** ** Validation *)

Lemma string_length_pos (i : string) : 1 ≤ String.length i ↔ i ≠ "".
Proof. destruct i; cbn; split; intros; [lia|done|done|lia]. Qed.

Lemma roomFormSchema_cases v :
  (3 ≤ String.length (name v) ∧ locationId v ≠ "" ∧ roomFormSchema v = inr v) ∨
  (¬ (3 ≤ String.length (name v) ∧ locationId v ≠ "") ∧
   roomFormSchema v =
   inl {| name_error :=
            if decide (3 ≤ String.length (name v)) then None
            else Some "Room name must be at least 3 characters long.";
          locationId_error :=
            if decide (locationId v ≠ "") then None
            else Some "Location is required." |}).
Proof.
  unfold roomFormSchema, z_string_min; cbn.
  destruct (decide (3 ≤ _)) as [Hn|Hn];
    destruct (decide (1 ≤ _)) as [Hl|Hl]; rewrite string_length_pos in Hl;
    destruct (decide (locationId v ≠ "")); try done; cbn.
  - by left.
  - right. split; [|done]. by intros [_ ?].
  - right. split; [|done]. by intros [? _].
  - right. split; [|done]. by intros [? _].
Qed.

(** C6. The schema accepts a candidate (whose fields are strings, by the
    type of the form values) exactly when its name has at least 3
    characters and its locationId is not empty, and then yields the
    candidate itself.  Otherwise it yields, and [handleSubmit] stores,
    "Room name must be at least 3 characters long." for a short name and
    "Location is required." for an empty locationId (and no message for a
    field that obeys its rule), and the submit handler is not invoked:
    [handleSubmit] does nothing but store the errors, whatever handler it
    was given. *)
Theorem C6_validation_schema v :
  ((∃ data, roomFormSchema v = inr data) ↔
     3 ≤ String.length (name v) ∧ locationId v ≠ "") ∧
  (∀ data, roomFormSchema v = inr data → data = v) ∧
  (¬ (3 ≤ String.length (name v) ∧ locationId v ≠ "") →
     ∃ e, roomFormSchema v = inl e) ∧
  (∀ e, roomFormSchema v = inl e →
     name_error e =
       (if decide (3 ≤ String.length (name v)) then None
        else Some "Room name must be at least 3 characters long.") ∧
     locationId_error e =
       (if decide (locationId v ≠ "") then None
        else Some "Location is required.") ∧
     (∀ onValid : RoomFormValues → @Prog X Exn unit,
        handleSubmit onValid v = perform (FormErrors e)) ∧
     (∀ p oracle,
        trace oracle (handleSubmit (onSubmit p) v) = [Did (FormErrors e)])).
Proof.
  split_and!.
  - destruct (roomFormSchema_cases v) as [(?&?&Hv)|[? Hv]]; rewrite Hv.
    + split; [done|by eexists].
    + split; [by intros [? [=]]|done].
  - apply roomFormSchema_inr.
  - destruct (roomFormSchema_cases v) as [(?&?&Hv)|[? Hv]]; [tauto|].
    by eexists.
  - intros e He.
    destruct (roomFormSchema_cases v) as [(?&?&Hv)|[? Hv]];
      rewrite Hv in He; [done|].
    injection He as <-. unfold trace, handleSubmit. rewrite Hv. by cbn.
Qed.

(** ** Form state controller *)

(** C7. Whenever the dialog is rendered open with a changed dependency of
    the effect (in particular on every transition to open, the first
    render included), whatever the state [s] left by an earlier session
    and whatever the optional room, the location list and the optional
    default: the form values become
    [initialValues p], the field errors are cleared and the submitting
    flag is reset to [false].  The name is the room's name if a room is
    supplied and the empty string otherwise; the locationId is the room's
    locationId if that is present (a non-empty string), else the supplied
    default if that is present, else the id of the first location if there
    is one, else the empty string. *)
Theorem C7_open_reinitializes s p :
  isOpen p = true →
  (∃ s', step s (Render p) =
           Some (s', [Did (FormReset (initialValues p));
                      Did (SetIsSubmitting false)]) ∧
         props s' = p ∧ values s' = initialValues p ∧
         errors s' = no_errors ∧ isSubmitting s' = false ∧
         pending s' = pending s) ∧
  (values (mount (Exn:=Exn) p).1 = initialValues p ∧
   isSubmitting (mount (Exn:=Exn) p).1 = false) ∧
  name (initialValues p) =
    match room p with Some r => room_name r | None => "" end ∧
  locationId (initialValues p) =
    (let of_room := match room p with Some r => room_locationId r | None => "" end in
     let of_default := default "" (defaultLocationId p) in
     if decide (of_room ≠ "") then of_room
     else if decide (of_default ≠ "") then of_default
     else match locations p with l :: _ => loc_id l | [] => "" end).
Proof.
  intros Ho. split_and!.
  - cbn. unfold dispatch, openEffect. rewrite Ho. cbn. by eexists.
  - unfold mount, dispatch, openEffect. by rewrite Ho.
  - unfold mount, dispatch, openEffect. by rewrite Ho.
  - unfold initialValues; cbn. destruct (room p) as [r|]; cbn; [|done].
    by destruct (decide (room_name r = "")) as [->|].
  - unfold initialValues; cbn.
    destruct (room p) as [r|], (defaultLocationId p) as [d|],
      (locations p) as [|l ls]; cbn;
      repeat (case_decide; cbn; try done; try lia; try congruence).
Qed.

(** ** The flag recorded in a log is the flag of the state *)

Lemma foldl_apply_event_flag s t :
  isSubmitting (foldl apply_event s t) = foldl next_flag (isSubmitting s) t.
Proof.
  revert s. induction t as [|ev t IH]; intros s; [done|]. cbn.
  rewrite IH. by destruct ev as [[]|].
Qed.

Lemma dispatch_flag s (m : @Prog X Exn unit) :
  isSubmitting (dispatch s m).1 = foldl next_flag (isSubmitting s) (dispatch s m).2.
Proof.
  unfold dispatch. destruct (run_sync m) as [t r]. cbn.
  rewrite <- foldl_apply_event_flag. by destruct r.
Qed.

Lemma dispatch_flag_eq s (m : @Prog X Exn unit) s' t :
  dispatch s m = (s', t) →
  isSubmitting s' = foldl next_flag (isSubmitting s) t.
Proof. intros Hd. pose proof (dispatch_flag s m) as Hf. by rewrite Hd in Hf. Qed.

Lemma step_flag s i s' t :
  step s i = Some (s', t) →
  isSubmitting s' = foldl next_flag (isSubmitting s) t.
Proof.
  assert (∀ s0 (m : @Prog X Exn unit),
            Some (dispatch s0 m) = Some (s', t) →
            isSubmitting s' = foldl next_flag (isSubmitting s0) t) as Hdispatch.
  { intros s0 m Hd. apply (dispatch_flag_eq s0 m). congruence. }
  destruct i as [p|n|j| |open| |j o]; cbn -[dispatch]; intros Hstep.
  - by apply Hdispatch in Hstep.
  - destruct (isOpen (props s)); [|done]. by injection Hstep as <- <-.
  - destruct (isOpen (props s)); [|done].
    destruct (locations (props s) !! j); [|done]. by injection Hstep as <- <-.
  - destruct (isOpen (props s) && _); [|done]. by apply Hdispatch in Hstep.
  - destruct (isOpen (props s)); [|done]. by apply Hdispatch in Hstep.
  - destruct (isOpen (props s) && _); [|done]. by apply Hdispatch in Hstep.
  - destruct (pending s !! j); [|done]. cbn -[dispatch] in Hstep.
    by apply Hdispatch in Hstep.
Qed.

Lemma steps_flag ins s s' t :
  steps s ins = Some (s', t) →
  isSubmitting s' = foldl next_flag (isSubmitting s) t.
Proof.
  revert s t. induction ins as [|i ins IH]; intros s t Hsteps; cbn in Hsteps.
  - by injection Hsteps as <- <-.
  - destruct (step s i) as [[s1 t1]|] eqn:Hstep; [|done]. cbn in Hsteps.
    destruct (steps s1 ins) as [[s2 t2]|] eqn:Hrest; [|done].
    injection Hsteps as <- <-.
    rewrite foldl_app, <- (step_flag _ _ _ _ Hstep). by apply IH.
Qed.

(** ** A submission in the dialog is a run of the handler *)

(** A click on the enabled submit button either completes in the same turn
    (validation failed) or leaves one suspended handler; when its call
    settles as [o], the events of the two turns are those of
    [trace (λ _, o)] on [handleSubmit onSubmit], and nothing stays
    suspended. *)
Lemma submit_then_settle s s1 t1 o :
  step s Submit = Some (s1, t1) →
  (pending s1 = pending s ∧
   ∀ oracle, trace oracle (handleSubmit (onSubmit (props s)) (values s)) = t1) ∨
  (∃ s2 t2, step s1 (Settle (length (pending s)) o) = Some (s2, t2) ∧
     pending s2 = pending s ∧
     trace (λ _, o) (handleSubmit (onSubmit (props s)) (values s)) = t1 ++ t2).
Proof.
  cbn -[dispatch]. destruct (isOpen (props s)); [|done]. cbn -[dispatch].
  unfold submit_disabled.
  destruct (isSubmitting s); [done|]. cbn -[dispatch].
  case_bool_decide as Hl; [done|]. cbn -[dispatch].
  rewrite locations_nil_length in Hl.
  unfold dispatch, trace, handleSubmit.
  destruct (roomFormSchema_cases (values s)) as [(_&_&Hv)|[_ Hv]]; rewrite Hv.
  - intros Hstep. right. unfold onSubmit in *.
    destruct (decide (length (locations (props s)) = 0))
      as [?%locations_nil_length|_]; [done|].
    destruct (room (props s)) as [r|]; cbn in Hstep; injection Hstep as <- <-;
      cbn -[dispatch]; rewrite list_lookup_middle by done; cbn;
      rewrite (delete_middle _ []), app_nil_r;
      (destruct o as [x|error]; [destruct (truthy x) eqn:Hx|]); cbn;
      rewrite ?Hx; cbn; rewrite ?app_nil_r; by eexists _, _.
  - intros Hstep. left. cbn in Hstep. by injection Hstep as <- <-.
Qed.

(** ** The location invariant *)

Lemma only_emits_bind (P : @Effect Exn → Prop) {A B} (m : @Prog X Exn A)
    (f : A → @Prog X Exn B) :
  only_emits P m → (∀ a, only_emits P (f a)) → only_emits P (bind m f).
Proof.
  intros Hm Hf. induction m as [a|error|e k IH|c k IH]; cbn in *.
  - apply Hf.
  - done.
  - split; [apply Hm|apply IH, Hm].
  - intros o. apply IH, Hm.
Qed.

Lemma only_emits_try_catch (P : @Effect Exn → Prop) {A} (m : @Prog X Exn A)
    (h : Exn → @Prog X Exn A) :
  only_emits P m → (∀ error, only_emits P (h error)) →
  only_emits P (try_catch m h).
Proof.
  intros Hm Hh. induction m as [a|error|e k IH|c k IH]; cbn in *.
  - done.
  - apply Hh.
  - split; [apply Hm|apply IH, Hm].
  - intros o. apply IH, Hm.
Qed.

Lemma only_emits_try_finally (P : @Effect Exn → Prop) {A} (m : @Prog X Exn A)
    (fin : @Prog X Exn unit) :
  only_emits P m → only_emits P fin → only_emits P (try_finally m fin).
Proof.
  intros Hm Hfin. induction m as [a|error|e k IH|c k IH]; cbn in *.
  - by apply only_emits_bind.
  - by apply only_emits_bind.
  - split; [apply Hm|apply IH, Hm].
  - intros o. apply IH, Hm.
Qed.

Lemma onSubmit_keeps_form p data :
  only_emits (@keeps_form Exn) (onSubmit p data).
Proof.
  unfold onSubmit. case_decide; [done|]. cbn. split; [done|].
  apply only_emits_try_finally; [|done].
  apply only_emits_try_catch; [|done].
  destruct (room p); cbn; intros [x|error]; cbn; [|done| |done];
    by destruct (truthy x).
Qed.

Lemma handleSubmit_keeps_form p v :
  only_emits (@keeps_form Exn) (handleSubmit (onSubmit p) v).
Proof.
  unfold handleSubmit. destruct (roomFormSchema v); cbn; [done|].
  split; [done|]. apply onSubmit_keeps_form.
Qed.

Lemma dispatch_keeps_form s (m : @Prog X Exn unit) :
  only_emits keeps_form m →
  props (dispatch s m).1 = props s ∧
  values (dispatch s m).1 = values s ∧
  (pending_keep_form s → pending_keep_form (dispatch s m).1).
Proof.
  unfold dispatch. revert s.
  induction m as [a|error|e k IH|c k _]; intros s Hm; cbn.
  - done.
  - done.
  - destruct Hm as [He Hk].
    specialize (IH (apply_event s (Did e)) Hk).
    destruct (run_sync k) as [t r]. cbn in *.
    destruct IH as (-> & -> & IH). split_and!.
    + by destruct e.
    + by destruct e.
    + intros Hp. apply IH. by destruct e.
  - split_and!; [done..|]. unfold pending_keep_form; cbn.
    intros Hp. apply Forall_app. split; [done|]. by apply Forall_singleton.
Qed.

Lemma initialValues_in_list p :
  seed_in_list p → locations p ≠ [] →
  locationId (initialValues p) ∈ location_ids p.
Proof.
  unfold seed_in_list, initialValues, location_ids. intros Hseed Hl. cbn.
  assert (from_option loc_id "" (locations p !! 0) ∈ loc_id <$> locations p)
    as Hfirst.
  { destruct (locations p) as [|l ls]; [done|]. cbn. by left. }
  destruct (or_undef _ _) as [i|]; cbn.
  - destruct (decide (i = "")); [|by apply Hseed].
    case_decide; [done|]. destruct (locations p); cbn in *; [done|lia].
  - case_decide; [done|]. destruct (locations p); cbn in *; [done|lia].
Qed.

Lemma mount_invariant p :
  seed_in_list p →
  location_valid (mount (Exn:=Exn) p).1 ∧
  pending_keep_form (mount (Exn:=Exn) p).1.
Proof.
  intros Hseed. unfold mount, dispatch, openEffect.
  destruct (isOpen p) eqn:Ho; cbn.
  - split; [|by apply Forall_nil].
    intros _ Hl. by apply initialValues_in_list.
  - split; [|by apply Forall_nil].
    intros _ Hl. by apply initialValues_in_list.
Qed.

Lemma step_invariant s i s' t :
  match i with Render p => seed_in_list p | _ => True end →
  location_valid s ∧ pending_keep_form s →
  step s i = Some (s', t) →
  location_valid s' ∧ pending_keep_form s'.
Proof.
  intros Hi [Hv Hp] Hstep. destruct i as [p|n|j| |open| |j o]; cbn in Hstep.
  - injection Hstep as Hd. apply (f_equal fst) in Hd. cbn [fst] in Hd. subst s'.
    unfold dispatch, openEffect.
    destruct (isOpen p) eqn:Ho; cbn.
    + split; [|done]. intros _ Hl. by apply initialValues_in_list.
    + split; [|done]. intros ?; cbn in *; congruence.
  - destruct (isOpen (props s)); [|done]. by injection Hstep as <- <-.
  - destruct (isOpen (props s)); [|done].
    destruct (locations (props s) !! j) as [l|] eqn:Hj; [|done].
    injection Hstep as <- <-. split; [|done]. intros _ _. cbn.
    apply list_elem_of_fmap_2. by eapply list_elem_of_lookup_2.
  - destruct (isOpen (props s) && _); [|done]. by injection Hstep as <- <-.
  - destruct (isOpen (props s)); [|done]. injection Hstep as Hd.
    destruct open; cbn in Hd; by injection Hd as <- <-.
  - destruct (isOpen (props s) && _); [|done].
    injection Hstep as Hd. apply (f_equal fst) in Hd. cbn [fst] in Hd. subst s'.
    destruct (dispatch_keeps_form s _ (handleSubmit_keeps_form (props s) (values s)))
      as (Hprops & Hvalues & Hpend).
    split; [|by apply Hpend].
    unfold location_valid. by rewrite Hprops, Hvalues.
  - destruct (pending s !! j) as [k|] eqn:Hk; [|done]. cbn in Hstep.
    injection Hstep as Hd. apply (f_equal fst) in Hd. cbn [fst] in Hd. subst s'.
    assert (∀ o', only_emits keeps_form (k o')) as Hquiet.
    { by apply (Forall_lookup_1 _ _ _ _ Hp Hk). }
    destruct (dispatch_keeps_form (set_pending s (delete j (pending s))) _
                (Hquiet o)) as (Hprops & Hvalues & Hpend).
    split.
    + unfold location_valid. by rewrite Hprops, Hvalues.
    + apply Hpend. unfold pending_keep_form; cbn. by apply Forall_delete.
Qed.

Lemma steps_invariant ins s s' t :
  renders_seeded ins →
  location_valid s ∧ pending_keep_form s →
  steps s ins = Some (s', t) →
  location_valid s' ∧ pending_keep_form s'.
Proof.
  revert s t. induction ins as [|i ins IH]; intros s t Hins Hinv Hsteps.
  - by injection Hsteps as <- <-.
  - apply Forall_cons in Hins as [Hi Hins]. cbn in Hsteps.
    destruct (step s i) as [[s1 t1]|] eqn:Hstep; [|done]. cbn in Hsteps.
    destruct (steps s1 ins) as [[s2 t2]|] eqn:Hrest; [|done].
    injection Hsteps as <- <-.
    eapply IH; [done| |done]. by eapply step_invariant.
Qed.

(** C8, as the code has it.  Provided the props seed the form with an id
    of the list (the room's locationId when it is not empty, otherwise the
    default when it is not empty), at every point the dialog reaches while
    open and showing a non-empty list the form's locationId is an id of
    that list; while the list is empty the submit control takes no input
    and the submit handler makes no persistence call. *)
Theorem C8_locationId_in_list p ins s t :
  seed_in_list p → renders_seeded ins →
  steps (mount p).1 ins = Some (s, t) →
  isOpen (props s) = true →
  (locations (props s) ≠ [] →
     locationId (values s) ∈ location_ids (props s)) ∧
  (locations (props s) = [] →
     step s Submit = None ∧
     ∀ data oracle, calls (trace oracle (onSubmit (props s) data)) = []).
Proof.
  intros Hseed Hins Hsteps Ho.
  destruct (steps_invariant ins _ s t Hins (mount_invariant p Hseed) Hsteps)
    as [Hv _].
  split; [by apply Hv|]. intros Hl. split.
  - cbn. unfold submit_disabled. rewrite Hl. cbn.
    by rewrite orb_true_r, andb_false_r.
  - intros data oracle. unfold trace.
    by rewrite onSubmit_rejects_empty.
Qed.

(** * Further properties of the session *)

Implicit Types (k : @Settled X Exn → @Prog X Exn unit) (o : @Settled X Exn).
Implicit Types (i : @Input X Exn).

(** ** What each turn does *)

Lemma onSubmit_suspends p data :
  locations p ≠ [] →
  ∃ k, run_sync (onSubmit p data) =
         ([Did (SetIsSubmitting true); Invoked (submit_call p data)],
          Suspended (submit_call p data) k) ∧
       resumes_once k.
Proof.
  intros Hl. unfold onSubmit, submit_call.
  destruct (decide (length (locations p) = 0))
    as [?%locations_nil_length|_]; [done|].
  destruct (room p) as [r|]; cbn; (eexists; split; [reflexivity|]).
  - exists true. intros [x|error]; cbn; [|done]. by destruct (truthy x).
  - exists false. intros [x|error]; cbn; [|done]. by destruct (truthy x).
Qed.

Lemma step_Submit_cases s s' t :
  step s Submit = Some (s', t) →
  isOpen (props s) = true ∧ isSubmitting s = false ∧ locations (props s) ≠ [] ∧
  props s' = props s ∧ values s' = values s ∧
  ((∃ e, roomFormSchema (values s) = inl e ∧ t = [Did (FormErrors e)] ∧
         errors s' = e ∧ isSubmitting s' = false ∧ pending s' = pending s) ∨
   (roomFormSchema (values s) = inr (values s) ∧
    t = [Did (FormErrors no_errors); Did (SetIsSubmitting true);
         Invoked (submit_call (props s) (values s))] ∧
    errors s' = no_errors ∧ isSubmitting s' = true ∧
    ∃ k, pending s' = pending s ++ [k] ∧ resumes_once k)).
Proof.
  cbn -[dispatch]. destruct (isOpen (props s)); [|done]. cbn -[dispatch].
  unfold submit_disabled.
  destruct (isSubmitting s) eqn:Hflag; [done|]. cbn -[dispatch].
  case_bool_decide as Hl; [done|]. cbn -[dispatch].
  rewrite locations_nil_length in Hl.
  unfold dispatch, handleSubmit.
  destruct (roomFormSchema_cases (values s)) as [(_&_&Hv)|[_ Hv]]; rewrite Hv.
  - destruct (onSubmit_suspends (props s) (values s) Hl) as (k & Hk & Hres).
    cbn. rewrite Hk. cbn. intros [= <- <-]. cbn.
    split_and!; try done. right. split_and!; try done. by exists k.
  - cbn. intros [= <- <-]. cbn. rewrite Hflag.
    split_and!; try done. left. by eexists.
Qed.

Lemma step_Settle_cases s j o s' t :
  pending_resume_once s →
  step s (Settle j o) = Some (s', t) →
  props s' = props s ∧ values s' = values s ∧ errors s' = errors s ∧
  isSubmitting s' = false ∧ pending s' = delete j (pending s) ∧
  j < length (pending s) ∧
  ∃ edit, t = settle_events edit o.
Proof.
  intros Hp. cbn -[dispatch].
  destruct (pending s !! j) as [k|] eqn:Hk; [|done]. cbn -[dispatch].
  destruct (Forall_lookup_1 _ _ _ _ Hp Hk) as [edit Hrun].
  unfold dispatch. rewrite (Hrun o). intros [= <- <-].
  assert (j < length (pending s)) by by eapply lookup_lt_Some.
  destruct o as [x|error]; cbn; [destruct (truthy x) eqn:Hx|];
    cbn; rewrite ?Hx; split_and!; try done; by exists edit; cbn; rewrite ?Hx.
Qed.

Lemma step_resume_once s i s' t :
  pending_resume_once s → step s i = Some (s', t) → pending_resume_once s'.
Proof.
  intros Hp. destruct i as [p|n|j| |open| |j o].
  - cbn. unfold dispatch, openEffect. destruct (isOpen p); cbn;
      by intros [= <- <-].
  - cbn. destruct (isOpen (props s)); [|done]. by intros [= <- <-].
  - cbn. destruct (isOpen (props s)); [|done].
    destruct (locations (props s) !! j); [|done]. by intros [= <- <-].
  - cbn. destruct (isOpen (props s) && _); [|done]. by intros [= <- <-].
  - cbn. destruct (isOpen (props s)); [|done]. destruct open; cbn;
      by intros [= <- <-].
  - intros Hstep. apply step_Submit_cases in Hstep
      as (_ & _ & _ & _ & _ & [(e & _ & _ & _ & _ & Hpend)|(_ & _ & _ & _ & k & Hpend & Hk)]);
      unfold pending_resume_once; rewrite Hpend; [done|].
    apply Forall_app. split; [done|]. by apply Forall_singleton.
  - intros Hstep. apply step_Settle_cases in Hstep
      as (_ & _ & _ & _ & Hpend & _); [|done].
    unfold pending_resume_once. rewrite Hpend. by apply Forall_delete.
Qed.

Lemma mount_resume_once p : pending_resume_once (mount (Exn:=Exn) p).1.
Proof.
  unfold mount, dispatch, openEffect. destruct (isOpen p); by apply Forall_nil.
Qed.

Lemma step_other_cases s i s' t :
  step s i = Some (s', t) →
  match i with
  | Render p =>
      props s' = p ∧ pending s' = pending s ∧
      if isOpen p
      then values s' = initialValues p ∧ errors s' = no_errors ∧
           isSubmitting s' = false ∧
           t = [Did (FormReset (initialValues p)); Did (SetIsSubmitting false)]
      else values s' = values s ∧ errors s' = errors s ∧
           isSubmitting s' = isSubmitting s ∧ t = []
  | ChangeName n =>
      isOpen (props s) = true ∧ t = [] ∧
      s' = set_values s (mkValues n (locationId (values s)))
  | SelectLocation j =>
      isOpen (props s) = true ∧ t = [] ∧
      ∃ l, locations (props s) !! j = Some l ∧
           s' = set_values s (mkValues (name (values s)) (loc_id l))
  | ClickCancel =>
      isOpen (props s) = true ∧ isSubmitting s = false ∧
      t = [Did (OnClose false)] ∧ s' = s
  | OpenChange open =>
      isOpen (props s) = true ∧
      t = (if open then [] else [Did (OnClose false)]) ∧ s' = s
  | Submit | Settle _ _ => True
  end.
Proof.
  destruct i as [p|n|j| |open| |j o]; cbn; [| | | | |done..].
  - unfold dispatch, openEffect. destruct (isOpen p); cbn;
      by intros [= <- <-].
  - destruct (isOpen (props s)); [|done]. by intros [= <- <-].
  - destruct (isOpen (props s)); [|done].
    destruct (locations (props s) !! j) as [l|]; [|done]. cbn.
    intros [= <- <-]. split_and!; try done. by exists l.
  - unfold cancel_disabled. destruct (isOpen (props s)); [|done].
    destruct (isSubmitting s); [done|]. cbn. intros [= <- <-]. by destruct s.
  - destruct (isOpen (props s)); [|done].
    destruct open; cbn; intros [= <- <-]; by destruct s.
Qed.

(** Induction over the turns of a session, for an invariant [I] that
    every turn on an input satisfying [Q] preserves. *)
Lemma steps_ind_invariant (Q : @Input X Exn → Prop) (I : @Dialog X Exn → Prop) :
  (∀ s i s' t, Q i → pending_resume_once s → I s →
     step s i = Some (s', t) → I s') →
  ∀ ins s s' t, Forall Q ins → pending_resume_once s → I s →
    steps s ins = Some (s', t) → pending_resume_once s' ∧ I s'.
Proof.
  intros Hstep. induction ins as [|i ins IH]; intros s s' t HQ Hp HI Hsteps.
  - by injection Hsteps as <- <-.
  - apply Forall_cons in HQ as [Hi HQ]. cbn in Hsteps.
    destruct (step s i) as [[s1 t1]|] eqn:Hs; [|done]. cbn in Hsteps.
    destruct (steps s1 ins) as [[s2 t2]|] eqn:Hrest; [|done].
    injection Hsteps as <- <-.
    eapply IH; [done|by eapply step_resume_once|by eapply Hstep|done].
Qed.

Lemma reachable_resume_once p ins s t :
  steps (mount p).1 ins = Some (s, t) → pending_resume_once s.
Proof.
  intros Hsteps.
  eapply (steps_ind_invariant (λ _, True) (λ _, True)); [done| | |done|done].
  - by apply Forall_true.
  - apply mount_resume_once.
Qed.

(** ** The submitting flag over a session *)

(** X1. Once every persistence call of a session has settled, the
    submitting flag is false: no sequence of renders, edits, submissions,
    cancellations, dismissals and outcomes leaves the controls disabled
    with nothing in flight. *)
Theorem flag_released_when_settled p ins s t :
  steps (mount p).1 ins = Some (s, t) → pending s = [] → isSubmitting s = false.
Proof.
  intros Hsteps.
  eapply (steps_ind_invariant (λ _, True)
            (λ s, pending s = [] → isSubmitting s = false));
    [|by apply Forall_true|apply mount_resume_once| |done].
  - clear. intros s i s' t _ Hp HI Hstep.
    destruct i as [p|n|j| |open| |j o];
      pose proof (step_other_cases _ _ _ _ Hstep) as Ho; cbn in Ho.
    + destruct Ho as (_ & Hpend & Hrest). rewrite Hpend.
      destruct (isOpen p); [by destruct Hrest as (_ & _ & -> & _)|].
      by destruct Hrest as (_ & _ & -> & _).
    + by destruct Ho as (_ & _ & ->).
    + by destruct Ho as (_ & _ & l & _ & ->).
    + by destruct Ho as (_ & _ & _ & ->).
    + by destruct Ho as (_ & _ & ->).
    + apply step_Submit_cases in Hstep
        as (_ & Hflag & _ & _ & _ & [(e & _ & _ & _ & Hf & Hpend)
                                    |(_ & _ & _ & _ & k & Hpend & _)]).
      * done.
      * rewrite Hpend. intros Hnil. by destruct (pending s).
    + by apply step_Settle_cases in Hstep as (_ & _ & _ & Hflag & _).
  - unfold mount, dispatch, openEffect. by destruct (isOpen p).
Qed.

(** X2. In a session with no re-render, at most one persistence call is
    pending at any time, the submitting flag is true exactly while one is,
    and the submit control takes no input then: submissions never
    overlap. *)
Theorem submissions_do_not_overlap p ins s t :
  Forall (λ i, ¬ is_render i) ins →
  steps (mount p).1 ins = Some (s, t) →
  length (pending s) ≤ 1 ∧
  (isSubmitting s = true ↔ pending s ≠ []) ∧
  (pending s ≠ [] → step s Submit = None).
Proof.
  intros Hins Hsteps.
  assert ((isSubmitting s = false ∧ pending s = []) ∨
          (isSubmitting s = true ∧ ∃ k, pending s = [k])) as Hinv.
  { eapply (steps_ind_invariant (λ i, ¬ is_render i)
              (λ s, (isSubmitting s = false ∧ pending s = []) ∨
                    (isSubmitting s = true ∧ ∃ k, pending s = [k])));
      [|done|apply mount_resume_once| |done].
    - clear. intros s i s' t Hi Hp HI Hstep.
      destruct i as [p|n|j| |open| |j o];
        pose proof (step_other_cases _ _ _ _ Hstep) as Ho; cbn in Ho.
      + by destruct Hi.
      + by destruct Ho as (_ & _ & ->).
      + by destruct Ho as (_ & _ & l & _ & ->).
      + by destruct Ho as (_ & _ & _ & ->).
      + by destruct Ho as (_ & _ & ->).
      + apply step_Submit_cases in Hstep
          as (_ & Hflag & _ & _ & _ & [(e & _ & _ & _ & Hf & Hpend)
                                      |(_ & _ & _ & Hf & k & Hpend & _)]).
        * destruct HI as [[_ Hnil]|[? _]]; [|congruence].
          left. by rewrite Hpend.
        * destruct HI as [[_ Hnil]|[? _]]; [|congruence].
          right. split; [done|]. exists k. by rewrite Hpend, Hnil.
      + apply step_Settle_cases in Hstep
          as (_ & _ & _ & Hflag & Hpend & Hj & _); [|done].
        left. split; [done|]. rewrite Hpend.
        destruct HI as [[_ Hnil]|[_ [k Hk]]]; rewrite ?Hnil, ?Hk in *;
          cbn in Hj; [lia|].
        by destruct j; [|lia].
    - left. unfold mount, dispatch, openEffect. by destruct (isOpen p). }
  destruct Hinv as [[Hf Hnil]|[Hf [k Hk]]].
  - rewrite Hnil, Hf. split_and!; [cbn; lia|done|done].
  - rewrite Hk, Hf. split_and!; [done|done|].
    intros _. cbn. unfold submit_disabled. rewrite Hf. cbn.
    by rewrite andb_false_r.
Qed.

(** ** What reaches the persistence layer *)

Lemma calls_app t1 t2 : calls (t1 ++ t2) = calls t1 ++ calls t2.
Proof. apply omap_app. Qed.

Lemma calls_settle_events (edit : bool) o : calls (settle_events edit o) = [].
Proof. destruct o as [x|error]; cbn; [|done]. by destruct (truthy x). Qed.

Lemma submit_call_valid p v :
  roomFormSchema v = inr v → carries_valid_data (submit_call p v).
Proof.
  intros Hv. destruct (roomFormSchema_cases v) as [(?&?&_)|[_ Hbad]];
    [|congruence].
  unfold submit_call. by destruct (room p).
Qed.

Lemma step_calls_valid s i s' t :
  pending_resume_once s → step s i = Some (s', t) →
  Forall carries_valid_data (calls t).
Proof.
  intros Hp Hstep. pose proof (step_other_cases _ _ _ _ Hstep) as Ho.
  destruct i as [p|n|j| |open| |j o]; cbn in Ho.
  - destruct Ho as (_ & _ & Hrest).
    destruct (isOpen p); destruct Hrest as (_ & _ & _ & ->); by cbn.
  - by destruct Ho as (_ & -> & _).
  - by destruct Ho as (_ & -> & _).
  - by destruct Ho as (_ & _ & -> & _).
  - destruct Ho as (_ & -> & _). by destruct open.
  - apply step_Submit_cases in Hstep
      as (_ & _ & _ & _ & _ & [(e & _ & -> & _)|(Hv & -> & _)]); cbn; [done|].
    apply Forall_singleton. by apply submit_call_valid.
  - apply step_Settle_cases in Hstep as (_ & _ & _ & _ & _ & _ & edit & ->);
      [|done].
    by rewrite calls_settle_events.
Qed.

(** X3. Whatever happens in a session, every call of [updateRoom] or
    [addRoom] carries a name of at least 3 characters and a non-empty
    locationId: nothing the schema rejects reaches persistence. *)
Theorem only_valid_data_is_persisted p ins s t c :
  steps (mount p).1 ins = Some (s, t) → c ∈ calls t → carries_valid_data c.
Proof.
  intros Hsteps. pose proof (mount_resume_once p) as Hp.
  assert (Forall carries_valid_data (calls t)) as Hall;
    [|by apply (proj1 (Forall_forall _ _) Hall)].
  revert Hsteps Hp. generalize (mount (Exn:=Exn) p).1. revert t.
  induction ins as [|i ins IH]; intros t s0 Hsteps Hp.
  - injection Hsteps as <- <-. by cbn.
  - cbn in Hsteps.
    destruct (step s0 i) as [[s1 t1]|] eqn:Hs; [|done]. cbn in Hsteps.
    destruct (steps s1 ins) as [[s2 t2]|] eqn:Hrest; [|done].
    injection Hsteps as <- <-. rewrite calls_app. apply Forall_app. split.
    + by eapply step_calls_valid.
    + eapply IH; [done|]. by eapply step_resume_once.
Qed.

(** ** Who calls [onClose], and with what *)


(** ** The draft *)

(** X5. From any point of a session on, turns that are not an edit or a
    render (submit clicks, settling calls with any outcome, Cancel,
    dismissals) leave the form values and the props as they are: a failed
    or successful submission never clears or alters what the user
    entered. *)
Theorem draft_survives_submission p ins1 s t1 ins2 s' t2 :
  steps (mount p).1 ins1 = Some (s, t1) →
  Forall (λ i, ¬ edits_form i) ins2 →
  steps s ins2 = Some (s', t2) →
  values s' = values s ∧ props s' = props s.
Proof.
  intros Hreach Hins Hsteps. apply reachable_resume_once in Hreach.
  eapply (steps_ind_invariant (λ i, ¬ edits_form i)
            (λ s0, values s0 = values s ∧ props s0 = props s));
    [|done|done|done|done].
  clear. intros s0 i s1 t Hi Hp [Hv Hprops] Hstep.
  pose proof (step_other_cases _ _ _ _ Hstep) as Ho.
  destruct i as [p'|n|j| |open| |j o]; cbn in Ho, Hi; try done.
  - by destruct Ho as (_ & _ & _ & ->).
  - by destruct Ho as (_ & _ & ->).
  - apply step_Submit_cases in Hstep as (_ & _ & _ & -> & -> & _). done.
  - apply step_Settle_cases in Hstep as (-> & -> & _); done.
Qed.

(** ** From the form to the call *)

Lemma roomFormSchema_valid v :
  3 ≤ String.length (name v) → locationId v ≠ "" → roomFormSchema v = inr v.
Proof.
  intros Hn Hl. by destruct (roomFormSchema_cases v) as [(_&_&Hv)|[[] _]].
Qed.

Lemma step_Submit_valid s :
  isOpen (props s) = true → isSubmitting s = false →
  locations (props s) ≠ [] → roomFormSchema (values s) = inr (values s) →
  ∃ s', step s Submit =
          Some (s', [Did (FormErrors no_errors); Did (SetIsSubmitting true);
                     Invoked (submit_call (props s) (values s))]).
Proof.
  intros Ho Hf Hl Hv. cbn -[dispatch]. unfold submit_disabled.
  rewrite Ho, Hf. cbn -[dispatch].
  case_bool_decide as Hlen; [by apply locations_nil_length in Hlen|].
  cbn -[dispatch]. unfold dispatch, handleSubmit. rewrite Hv. cbn.
  destruct (onSubmit_suspends (props s) (values s) Hl) as (k & -> & _).
  by eexists.
Qed.

(** X6. What the user enters is what is sent: in an open, idle dialog,
    typing a name of at least 3 characters, picking the [j]-th location
    (whose id is not empty) and clicking submit makes exactly one call, in
    the mode of the dialog, with that name and that location's id. *)
Theorem entered_values_are_submitted s n j l :
  isOpen (props s) = true → isSubmitting s = false →
  locations (props s) !! j = Some l →
  3 ≤ String.length n → loc_id l ≠ "" →
  ∃ s', steps s [ChangeName n; SelectLocation j; Submit] =
          Some (s', [Did (FormErrors no_errors); Did (SetIsSubmitting true);
                     Invoked (submit_call (props s) (mkValues n (loc_id l)))]) ∧
        values s' = mkValues n (loc_id l).
Proof.
  intros Ho Hf Hj Hn Hl.
  set (s2 := set_values s (mkValues n (loc_id l))).
  destruct (step_Submit_valid s2) as [s' Hs']; try done.
  { intros Hnil. cbn in Hnil. by rewrite Hnil in Hj. }
  { by apply roomFormSchema_valid. }
  assert (step s (ChangeName n) =
          Some (set_values s (mkValues n (locationId (values s))), [])) as H1.
  { cbn. by rewrite Ho. }
  assert (step (set_values s (mkValues n (locationId (values s))))
            (SelectLocation j) = Some (s2, [])) as H2.
  { cbn. by rewrite Ho, Hj. }
  exists s'. split.
  - cbn [steps]. rewrite H1. cbn -[step]. rewrite H2. cbn -[step].
    by rewrite Hs'.
  - by apply step_Submit_cases in Hs' as (_ & _ & _ & _ & -> & _).
Qed.

(** X7. Saving an untouched edit dialog sends the room back unchanged:
    when the dialog is opened on a room whose name and locationId pass the
    schema, a submit click right away calls [updateRoom] with exactly the
    room that was supplied. *)
Theorem untouched_edit_submits_the_room p r :
  isOpen p = true → room p = Some r → locations p ≠ [] →
  3 ≤ String.length (room_name r) → room_locationId r ≠ "" →
  ∃ s', step (mount (Exn:=Exn) p).1 Submit =
          Some (s', [Did (FormErrors no_errors); Did (SetIsSubmitting true);
                     Invoked (updateRoom r)]).
Proof.
  intros Ho Hr Hl Hn Hloc.
  assert (initialValues p = mkValues (room_name r) (room_locationId r)) as Hinit.
  { unfold initialValues. rewrite Hr. cbn.
    destruct (decide (room_name r = "")) as [Hempty|_];
      [rewrite Hempty in Hn; cbn in Hn; lia|].
    unfold or_undef, or_string.
    destruct (decide (room_locationId r = "")); [done|]. cbn.
    by destruct (decide (room_locationId r = "")). }
  assert (values (mount (Exn:=Exn) p).1 = initialValues p ∧
          props (mount (Exn:=Exn) p).1 = p ∧
          isSubmitting (mount (Exn:=Exn) p).1 = false) as (Hv & Hp & Hf).
  { unfold mount, dispatch, openEffect. by rewrite Ho. }
  destruct (step_Submit_valid (mount p).1) as [s' Hs']; rewrite ?Hp, ?Hv; try done.
  { rewrite Hinit. by apply roomFormSchema_valid. }
  exists s'. rewrite Hs', Hp, Hv, Hinit. unfold submit_call. rewrite Hr. cbn.
  by destruct r.
Qed.

(** X8. A create dialog cannot be submitted as it opens: with no room
    supplied the name starts empty, so a submit click right after the
    first render makes no call, leaves the flag false and stores the
    name-length message. *)
Theorem fresh_create_dialog_needs_a_name p s' t :
  room p = None →
  step (mount (Exn:=Exn) p).1 Submit = Some (s', t) →
  calls t = [] ∧ isSubmitting s' = false ∧
  name_error (errors s') =
    Some "Room name must be at least 3 characters long.".
Proof.
  intros Hr Hstep. set (s := (mount (Exn:=Exn) p).1) in *.
  assert (name (values s) = "") as Hname.
  { unfold s, mount, dispatch, openEffect, initialValues. rewrite Hr.
    by destruct (isOpen p). }
  apply step_Submit_cases in Hstep
    as (_ & _ & _ & _ & _ & [(e & He & -> & <- & Hf & _)|(Hv & _)]);
    destruct (roomFormSchema_cases (values s)) as [(Hn&_)|[_ Hbad]];
    rewrite ?Hname in *; cbn in *; try lia; try congruence.
  split_and!; [done..|].
  rewrite Hbad in He. injection He as <-. by cbn.
Qed.

(** ** The handler and the flag *)

(** X9. In every run of the submit handler, whatever the flag was before:
    a persistence call is only ever made while the submitting flag is
    true, and a run that made a call ends with the flag false; a run that
    made no call wrote no flag and called no [onClose]. *)
Theorem call_is_made_inside_the_flag_window p data oracle (b : bool) :
  let t := trace oracle (onSubmit p data) in
  (∀ f c, (f, Invoked c) ∈ with_flag b t → f = true) ∧
  (calls t ≠ [] → foldl next_flag b t = false) ∧
  (calls t = [] → flag_writes t = [] ∧ closes t = []).
Proof.
  intros t. subst t. onSubmit_cases p data oracle; split_and!; try done.
  all: intros f c Hin;
    repeat (apply elem_of_cons in Hin as [Hin|Hin]; [by simplify_eq|]);
    by apply elem_of_nil in Hin.
Qed.

(** ** What is shown *)


(** X11. With an empty location list an open dialog shows, whatever the
    form values, the errors and the flag: a disabled picker with no item
    and the placeholder "No locations available", the hint to add a
    location, and a disabled submit button; with a non-empty list the
    picker is enabled, offers one item per location in order (value the
    id, label the name), shows "Select a location" and no hint, and the
    submit button is disabled exactly while the flag is true. *)
Theorem view_follows_the_location_list s w :
  render s = Some w →
  (locations (props s) = [] →
     select_disabled w = true ∧ select_items w = [] ∧
     select_placeholder w = "No locations available" ∧
     hint_children w =
       Some "Please add a location first in the 'Locations' section." ∧
     submit_button_disabled w = true) ∧
  (locations (props s) ≠ [] →
     select_disabled w = false ∧
     length (select_items w) = length (locations (props s)) ∧
     (∀ j l, locations (props s) !! j = Some l →
             select_items w !! j = Some (loc_id l, loc_name l)) ∧
     select_placeholder w = "Select a location" ∧
     hint_children w = None ∧
     submit_button_disabled w = isSubmitting s).
Proof.
  unfold render. destruct (isOpen (props s)); [|done]. cbn. intros [= <-]. cbn.
  split.
  - intros ->. cbn. by rewrite orb_true_r.
  - intros Hl.
    assert (bool_decide (length (locations (props s)) = 0) = false) as Hlen.
    { case_bool_decide as Hnil; [by apply locations_nil_length in Hnil|done]. }
    rewrite Hlen. split_and!.
    + done.
    + by rewrite length_fmap.
    + intros j l Hj. by rewrite list_lookup_fmap, Hj.
    + destruct (decide (0 < length (locations (props s)))) as [|Hpos]; [done|].
      destruct (locations (props s)); cbn in Hpos; [done|lia].
    + destruct (decide (length (locations (props s)) = 0)) as [Hnil|];
        [by apply locations_nil_length in Hnil|done].
    + by rewrite orb_false_r.
Qed.

(** ** When a toast is shown *)

(** X12. In a session a toast is shown only in the turn in which a pending
    call settles, and then exactly one; the "No locations available" toast
    of the handler is never shown, since the submit button is disabled
    whenever the handler would take that branch. *)
Theorem toasts_of_each_turn p ins s t i s' t' :
  steps (mount p).1 ins = Some (s, t) →
  step s i = Some (s', t') →
  length (toasts t') = (match i with Settle _ _ => 1 | _ => 0 end) ∧
  toast_no_locations ∉ toasts t'.
Proof.
  intros Hsteps Hstep. apply reachable_resume_once in Hsteps.
  pose proof (step_other_cases _ _ _ _ Hstep) as Ho.
  destruct i as [p'|n|j| |open| |j o]; cbn in Ho.
  - destruct Ho as (_ & _ & Hrest).
    destruct (isOpen p'); destruct Hrest as (_ & _ & _ & ->);
      (split; [done|by intros ?%elem_of_nil]).
  - destruct Ho as (_ & -> & _). split; [done|by intros ?%elem_of_nil].
  - destruct Ho as (_ & -> & _). split; [done|by intros ?%elem_of_nil].
  - destruct Ho as (_ & _ & -> & _). split; [done|by intros ?%elem_of_nil].
  - destruct Ho as (_ & -> & _).
    destruct open; (split; [done|by intros ?%elem_of_nil]).
  - apply step_Submit_cases in Hstep
      as (_ & _ & _ & _ & _ & [(e & _ & -> & _)|(_ & -> & _)]);
      (split; [done|by intros ?%elem_of_nil]).
  - apply step_Settle_cases in Hstep as (_ & _ & _ & _ & _ & _ & edit & ->);
      [|done].
    destruct o as [x|error]; cbn; [destruct (truthy x)|]; destruct edit; cbn;
      (split; [done|by intros [=]%list_elem_of_singleton]).
Qed.

End Properties.

(** * The scenarios, evaluated *)

Lemma C1_edit_submission_witness :
  calls (trace update_fails (handleSubmit (onSubmit props_edit) renamed))
    = [updateRoom (mkRoom "R1" "New" "L1" 42)] ∧
  toasts (trace update_fails (handleSubmit (onSubmit props_edit) renamed))
    = [toast_update_failed] ∧
  closes (trace update_fails (handleSubmit (onSubmit props_edit) renamed)) = [].
Proof.
  destruct (C1_edit_submission props_edit room_R1 renamed update_fails
              eq_refl ltac:(discriminate) eq_refl) as (Hc & _ & _ & Hko).
  split; [exact Hc|]. exact (Hko (JsBool false) eq_refl eq_refl).
Defined.

Lemma C2_create_submission_witness :
  locationId (initialValues props_create) = "L1" ∧
  calls (trace create_succeeds (handleSubmit (onSubmit props_create) sunrise))
    = [addRoom "Sunrise Suite" "L1"] ∧
  toasts (trace create_succeeds (handleSubmit (onSubmit props_create) sunrise))
    = [toast_room_added] ∧
  closes (trace create_succeeds (handleSubmit (onSubmit props_create) sunrise))
    = [true].
Proof.
  destruct (C2_create_submission props_create sunrise create_succeeds
              eq_refl ltac:(discriminate) eq_refl) as (Hc & Hok & _).
  split; [reflexivity|]. split; [exact Hc|].
  exact (Hok (JsRoom room_created) eq_refl eq_refl).
Defined.

(** C3, counterexample.  In the create scenario, with the call resolving
    to the created room, [onClose(true)] is called while the submitting
    flag is true: the flag is set before the call and reset only in the
    [finally] block, after [onClose]. *)
Lemma C3_onClose_while_flag_true :
  session_log props_create create_session =
    Some [(false, Did (FormErrors no_errors));
          (false, Did (SetIsSubmitting true));
          (true, Invoked (addRoom "Sunrise Suite" "L1"));
          (true, Did (Toast toast_room_added));
          (true, Did (OnClose true));
          (true, Did (SetIsSubmitting false))] ∧
  ¬ (∀ log b u, session_log props_create create_session = Some log →
       (b, Did (OnClose u)) ∈ log → b = false).
Proof.
  split; [reflexivity|]. intros H.
  specialize (H _ true true eq_refl). cbn in H.
  discriminate H. do 4 right. left.
Qed.

(** The dismiss path.  [onOpenChange] has no guard on the flag: dismissing
    the dialog while the call is pending calls [onClose(false)] with the
    flag true, and the resumed handler then calls [onClose(true)]: two
    calls for one opening. *)
Lemma dismiss_while_submitting :
  session_log props_create dismissed_session =
    Some [(false, Did (FormErrors no_errors));
          (false, Did (SetIsSubmitting true));
          (true, Invoked (addRoom "Sunrise Suite" "L1"));
          (true, Did (OnClose false));
          (true, Did (Toast toast_room_added));
          (true, Did (OnClose true));
          (true, Did (SetIsSubmitting false))] ∧
  (closes ∘ snd) <$> steps (mount props_create).1 dismissed_session =
    Some [false; true].
Proof. split; reflexivity. Qed.

Lemma C3_onClose_after_success_or_cancel_witness :
  trace create_succeeds (onSubmit props_create sunrise) =
    [Did (SetIsSubmitting true); Invoked (addRoom "Sunrise Suite" "L1");
     Did (Toast toast_room_added); Did (OnClose true);
     Did (SetIsSubmitting false)] ∧
  step stale_session ClickCancel = None.
Proof.
  destruct (C3_onClose_after_success_or_cancel props_create sunrise
              create_succeeds stale_session) as (Hok & _ & Hcancel & _).
  split; [|exact (Hcancel eq_refl)].
  destruct (Hok (addRoom "Sunrise Suite" "L1") (JsRoom room_created))
    as (a & _ & Ha); [by left|reflexivity..|].
  pose proof Ha as Hrun. vm_compute in Hrun. injection Hrun as <-. exact Ha.
Defined.

Lemma C4_empty_locations_rejected_witness :
  trace call_throws (onSubmit props_no_locations sunrise) =
    [Did (Toast toast_no_locations)] ∧
  (dispatch stale_session (onSubmit props_no_locations sunrise)).1 = stale_session.
Proof.
  destruct (C4_empty_locations_rejected props_no_locations sunrise call_throws
              eq_refl) as (Ht & _ & _ & _ & _ & _ & _ & _ & Hs).
  split; [exact Ht|exact (Hs stale_session)].
Defined.

Lemma C5_thrown_error_is_caught_witness :
  run call_throws (onSubmit props_edit renamed) =
    ([Did (SetIsSubmitting true);
      Invoked (updateRoom (mkRoom "R1" "New" "L1" 42));
      Did (Toast toast_unexpected);
      Did (ConsoleError "Failed to save room:" "network down");
      Did (SetIsSubmitting false)], inr ()) ∧
  isSubmitting
    (foldl apply_event stale_session
       (trace call_throws (onSubmit props_edit renamed))) = false.
Proof.
  destruct (C5_thrown_error_is_caught props_edit renamed call_throws
              (updateRoom (mkRoom "R1" "New" "L1" 42)) "network down")
    as (Hrun & _ & _ & _ & _ & Hflag); [by left|reflexivity|].
  split; [exact Hrun|exact (Hflag stale_session)].
Defined.

Lemma C6_validation_schema_witness :
  ∃ e, roomFormSchema (mkValues "ab" "") = inl e ∧
    name_error e = Some "Room name must be at least 3 characters long." ∧
    locationId_error e = Some "Location is required." ∧
    trace update_fails (handleSubmit (onSubmit props_edit) (mkValues "ab" ""))
      = [Did (FormErrors e)].
Proof.
  destruct (C6_validation_schema (X:=nat) (Exn:=string) (mkValues "ab" ""))
    as (_ & _ & Hreject & Hmsg).
  destruct Hreject as [e He]; [intros [Hlen _]; cbn in Hlen; lia|].
  destruct (Hmsg e He) as (Hn & Hl & _ & Hblocked).
  exists e. split; [exact He|]. split; [exact Hn|]. split; [exact Hl|].
  exact (Hblocked props_edit update_fails).
Defined.

Lemma C7_open_reinitializes_witness :
  ∃ s', step stale_session (Render props_edit) =
          Some (s', [Did (FormReset (mkValues "Old" "L1"));
                     Did (SetIsSubmitting false)]) ∧
        values s' = mkValues "Old" "L1" ∧ isSubmitting s' = false.
Proof.
  destruct (C7_open_reinitializes stale_session props_edit eq_refl)
    as ((s' & Hstep & _ & Hvalues & _ & Hflag & _) & _ & _).
  exists s'. split; [exact Hstep|]. split; [exact Hvalues|exact Hflag].
Defined.

(** C8, counterexample.  With [defaultLocationId = "L2"] and the single
    location "L1", the open dialog holds [locationId = "L2"], which is not
    an id of the (non-empty) list, and a valid submission passes it on to
    [addRoom]. *)
Lemma C8_stray_default_location :
  isOpen (props (mount (Exn:=string) props_stray_default).1) = true ∧
  location_ids (props (mount (Exn:=string) props_stray_default).1) = ["L1"] ∧
  locationId (values (mount (Exn:=string) props_stray_default).1) = "L2" ∧
  ¬ (locationId (values (mount (Exn:=string) props_stray_default).1)
       ∈ location_ids (props (mount (Exn:=string) props_stray_default).1)) ∧
  (calls ∘ snd) <$> steps (mount props_stray_default).1 default_session
    = Some [addRoom "Sunrise Suite" "L2"].
Proof.
  split_and!; try reflexivity.
  cbn. intros H. apply list_elem_of_singleton in H. discriminate H.
Qed.

Lemma C8_locationId_in_list_witness :
  ∃ s t, steps (mount props_create).1 reopened_session = Some (s, t) ∧
    locationId (values s) = "L1" ∧
    locationId (values s) ∈ location_ids (props s).
Proof.
  eexists _, _. split; [reflexivity|]. split; [reflexivity|].
  eapply (C8_locationId_in_list props_create reopened_session).
  - intros i Hi _. cbn in Hi. injection Hi as <-. by left.
  - apply Forall_cons. split; [|by repeat constructor].
    intros i Hi _. cbn in Hi. injection Hi as <-. by left.
  - reflexivity.
  - reflexivity.
  - discriminate.
Defined.

Lemma C9_update_preserves_other_fields_witness :
  ∃ r', updateRoom (mkRoom "R1" "New" "L1" 42) = updateRoom r' ∧
    room_id r' = "R1" ∧ room_rest r' = 42 ∧
    room_name r' = "New" ∧ room_locationId r' = "L1".
Proof.
  apply (C9_update_preserves_other_fields props_edit room_R1 renamed
           update_fails (updateRoom (mkRoom "R1" "New" "L1" 42)) eq_refl).
  by left.
Defined.

Lemma C10_exactly_one_toast_witness :
  toasts (trace call_throws (onSubmit props_create sunrise)) = [toast_unexpected].
Proof.
  destruct (C10_exactly_one_toast props_create sunrise call_throws)
    as (a & Ha & _). rewrite Ha.
  injection Ha as <-. reflexivity.
Defined.

(** * Further scenarios, evaluated *)

Lemma flag_released_when_settled_witness :
  ∃ s t, steps (mount props_create).1 dismissed_session = Some (s, t) ∧
    isSubmitting s = false.
Proof.
  eexists _, _. split; [reflexivity|].
  by eapply (flag_released_when_settled props_create dismissed_session).
Defined.

Lemma submissions_do_not_overlap_witness :
  ∃ s t, steps (mount props_create).1 pending_session = Some (s, t) ∧
    length (pending s) = 1 ∧ isSubmitting s = true ∧ step s Submit = None.
Proof.
  eexists _, _. split; [reflexivity|].
  edestruct (submissions_do_not_overlap props_create pending_session)
    as (_ & Hflag & Hrefused); [|reflexivity|].
  - repeat constructor; by intros [].
  - split; [reflexivity|]. split; [by apply Hflag|by apply Hrefused].
Defined.

Lemma only_valid_data_is_persisted_witness :
  ∃ s t, steps (mount props_create).1 reopened_session = Some (s, t) ∧
    calls t = [updateRoom (mkRoom "R1" "Sunrise Suite" "L1" 42)] ∧
    carries_valid_data (updateRoom (mkRoom "R1" "Sunrise Suite" "L1" 42)).
Proof.
  eexists _, _. split; [reflexivity|]. split; [reflexivity|].
  eapply (only_valid_data_is_persisted props_create reopened_session);
    [reflexivity|by left].
Defined.


Lemma draft_survives_submission_witness :
  ∃ s' t2,
    steps typed_dialog failed_then_cancelled = Some (s', t2) ∧
    values s' = values typed_dialog ∧
    toasts t2 = [toast_unexpected] ∧ closes t2 = [false].
Proof.
  eexists _, _. split; [reflexivity|]. split; [|split; reflexivity].
  refine (proj1 (draft_survives_submission props_create
                   [ChangeName "Sunrise Suite"] typed_dialog []
                   failed_then_cancelled _ _ eq_refl _ eq_refl)).
  repeat constructor; by intros [].
Defined.

Lemma entered_values_are_submitted_witness :
  ∃ s', steps (mount (Exn:=string) props_edit).1
          [ChangeName "New"; SelectLocation 0; Submit] =
          Some (s', [Did (FormErrors no_errors); Did (SetIsSubmitting true);
                     Invoked (updateRoom (mkRoom "R1" "New" "L1" 42))]) ∧
        values s' = mkValues "New" "L1".
Proof.
  apply (entered_values_are_submitted (mount props_edit).1 "New" 0 lobby);
    [reflexivity|reflexivity|reflexivity|cbn; lia|discriminate].
Defined.

Lemma untouched_edit_submits_the_room_witness :
  ∃ s', step (mount (Exn:=string) props_edit).1 Submit =
          Some (s', [Did (FormErrors no_errors); Did (SetIsSubmitting true);
                     Invoked (updateRoom room_R1)]).
Proof.
  apply (untouched_edit_submits_the_room props_edit room_R1);
    [reflexivity|reflexivity|discriminate|cbn; lia|discriminate].
Defined.

Lemma fresh_create_dialog_needs_a_name_witness :
  ∃ s' t, step (mount (Exn:=string) props_create).1 Submit = Some (s', t) ∧
    calls t = [] ∧ isSubmitting s' = false ∧
    name_error (errors s') =
      Some "Room name must be at least 3 characters long.".
Proof.
  eexists _, _. split; [reflexivity|].
  by eapply (fresh_create_dialog_needs_a_name props_create).
Defined.

Lemma call_is_made_inside_the_flag_window_witness :
  foldl next_flag true (trace call_throws (onSubmit props_edit renamed)) = false.
Proof.
  destruct (call_is_made_inside_the_flag_window props_edit renamed
              call_throws true) as (_ & Hend & _).
  apply Hend. discriminate.
Defined.


Lemma view_follows_the_location_list_witness :
  select_placeholder <$> render (mount (Exn:=string) props_no_locations).1
    = Some "No locations available" ∧
  submit_button_disabled <$> render (mount (Exn:=string) props_no_locations).1
    = Some true.
Proof.
  destruct (render (mount (Exn:=string) props_no_locations).1) as [w|] eqn:Hw;
    [|discriminate Hw].
  destruct (view_follows_the_location_list (mount props_no_locations).1 w Hw)
    as [Hempty _].
  destruct (Hempty eq_refl) as (_ & _ & Hph & _ & Hsub).
  cbn. by rewrite Hph, Hsub.
Defined.

Lemma toasts_of_each_turn_witness :
  ∃ s t s' t',
    steps (mount props_create).1 pending_session = Some (s, t) ∧
    step s (Settle 0 (Rejected "network down")) = Some (s', t') ∧
    length (toasts t') = 1 ∧ toast_no_locations ∉ toasts t'.
Proof.
  eexists _, _, _, _. split; [reflexivity|]. split; [reflexivity|].
  exact (toasts_of_each_turn props_create pending_session _ _
           (Settle 0 (Rejected "network down")) _ _ eq_refl eq_refl).
Defined.
